(** * The blog editor component (components/editor/index.tsx)

    A shallow embedding of the [Editor] React component: its hook state, the
    handlers the component creates on every render (closures over that
    render's state), the asynchronous gallery calls and the effects.

    The rich-text engine (the TipTap editor instance returned by
    [useEditor]) is a dependency of the component, not part of it; the
    component only calls into it.  It appears here as an interface,
    [EditorApi], and every statement is proved for all implementations. *)

From Stdlib Require Import String List ZArith Bool Lia.
Import ListNotations.
Open Scope string_scope.

Set Implicit Arguments.

(** ** Plain data *)

(** A browser [File]; the component only passes it on. *)
Record File := mkFile { file_name : string; file_bytes : list Byte.byte }.

(** [Range] of @tiptap/react: [{ from: number; to: number }]. *)
Record Range := mkRange { from : Z; to : Z }.

(** An entry of the gallery: [{ src: string }]. *)
Record Image := mkImage { src : string }.

(** [ImageSelectionResult] of the gallery modal, as [handleImageSelect]
    reads it: [result.src] and [result.altText]. *)
Record ImageSelectionResult := mkSelection { sel_src : string; altText : string }.

(** [SeoResult], as the component reads and writes it ([meta], [slug],
    [tags] are destructured from a post and initialised to empty strings). *)
Record SeoResult := mkSeo { seo_meta : string; seo_slug : string; seo_tags : string }.

(** [thumbnail?: File | string]. *)
Inductive Thumbnail :=
| LocalFile (f : File)
| RemoteUrl (url : string).

(** [interface FinalPost extends SeoResult]. *)
Record FinalPost := mkPost {
  title : string;
  content : string;
  thumbnail : option Thumbnail;
  meta : string;
  tags : string;
  slug : string
}.

(** [FormData], a list of appended entries. *)
Definition FormData := list (string * File).

(** What a rejected axios promise carries. *)
Record AxiosError := mkAxiosError { message : string }.

(** The settlement of an awaited promise. *)
Inductive Reply (A : Type) :=
| Resolved (data : A)
| Rejected (err : AxiosError).
Arguments Rejected {A} err.

(** Commands that the component chains on the editor. *)
Inductive ChainedCommand :=
| focus
| setImage (image_src image_alt : string).

Inductive MarkType := link.

(** ** The editor instance, as the component uses it *)

Class EditorApi (Editor : Type) := {
  (** [editor.getHTML()] *)
  getHTML : Editor -> string;
  (** [editor.commands.setContent(content)] *)
  setContent : string -> Editor -> Editor;
  (** [editor.commands.setTextSelection(range)] *)
  setTextSelection : Range -> Editor -> Editor;
  (** [editor.chain(). ... .run()] *)
  runChain : list ChainedCommand -> Editor -> Editor;
  (** [getMarkRange(state.doc.resolve(pos), state.schema.marks.<type>)] *)
  getMarkRange : Editor -> Z -> MarkType -> option Range
}.

Section Component.

Context {Editor : Type} `{EditorApi Editor}.

(** ** Hook state

    One field per [useState] of the component, and the instance that
    [useEditor] returns ([null] until the engine is initialised). *)
Record State := mkState {
  selectionRange : option Range;
  showGallery : bool;
  uploading : bool;
  images : list Image;
  seoInitialValue : option SeoResult;
  post : FinalPost;
  editor : option Editor
}.

(** The initial value of the [post] hook. *)
Definition emptyPost : FinalPost :=
  {| title := ""; content := ""; thumbnail := None;
     meta := ""; tags := ""; slug := "" |}.

(** [useState] initial values. *)
Definition initialState : State := {|
  selectionRange := None;
  showGallery := false;
  uploading := false;
  images := [];
  seoInitialValue := None;
  post := emptyPost;
  editor := None
|}.

Record Props := mkProps {
  initialValue : option FinalPost;
  btnTitle : string;
  busy : bool
}.

(** The state setters returned by [useState]. *)
Definition setSelectionRange (v : Range) (s : State) : State :=
  {| selectionRange := Some v; showGallery := showGallery s;
     uploading := uploading s; images := images s;
     seoInitialValue := seoInitialValue s; post := post s;
     editor := editor s |}.

Definition setShowGallery (v : bool) (s : State) : State :=
  {| selectionRange := selectionRange s; showGallery := v;
     uploading := uploading s; images := images s;
     seoInitialValue := seoInitialValue s; post := post s;
     editor := editor s |}.

Definition setUploading (v : bool) (s : State) : State :=
  {| selectionRange := selectionRange s; showGallery := showGallery s;
     uploading := v; images := images s;
     seoInitialValue := seoInitialValue s; post := post s;
     editor := editor s |}.

Definition setImages (v : list Image) (s : State) : State :=
  {| selectionRange := selectionRange s; showGallery := showGallery s;
     uploading := uploading s; images := v;
     seoInitialValue := seoInitialValue s; post := post s;
     editor := editor s |}.

Definition setSeoInitialValue (v : SeoResult) (s : State) : State :=
  {| selectionRange := selectionRange s; showGallery := showGallery s;
     uploading := uploading s; images := images s;
     seoInitialValue := Some v; post := post s;
     editor := editor s |}.

Definition setPost (v : FinalPost) (s : State) : State :=
  {| selectionRange := selectionRange s; showGallery := showGallery s;
     uploading := uploading s; images := images s;
     seoInitialValue := seoInitialValue s; post := v;
     editor := editor s |}.

(** A call on the editor object: the instance is mutated in place. *)
Definition onEditor (f : Editor -> Editor) (s : State) : State :=
  {| selectionRange := selectionRange s; showGallery := showGallery s;
     uploading := uploading s; images := images s;
     seoInitialValue := seoInitialValue s; post := post s;
     editor := option_map f (editor s) |}.

(** ** Handler bodies

    A handler body is a sequence of state updates and calls of the
    [onSubmit] prop, possibly suspended at an [await] of an axios promise.
    No handler of the component catches: a rejected promise ends the body
    at the [await], and the continuation is only reached with the data. *)
Inductive Async :=
| Ret
| Update (f : State -> State) (k : Async)
| OnSubmit (p : FinalPost) (k : Async)
| AxiosGet (url : string) (k : list Image -> Async)
| AxiosPost (url : string) (body : FormData) (k : Image -> Async).

(** The component together with what it has handed to [onSubmit]. *)
Record World := mkWorld {
  hooks : State;
  submitted : list FinalPost
}.

Inductive Pending :=
| PendingGet (url : string) (k : list Image -> Async)
| PendingPost (url : string) (body : FormData) (k : Image -> Async).

(** How a call of a handler stands: returned (promise fulfilled), its
    promise rejected, or suspended at an [await]. *)
Inductive Outcome :=
| Completed
| Failed (err : AxiosError)
| Suspended (p : Pending).

(** Run a body up to its next [await]. *)
Fixpoint run (t : Async) (w : World) : World * Outcome :=
  match t with
  | Ret => (w, Completed)
  | Update f k => run k {| hooks := f (hooks w); submitted := submitted w |}
  | OnSubmit p k => run k {| hooks := hooks w; submitted := submitted w ++ [p] |}
  | AxiosGet url k => (w, Suspended (PendingGet url k))
  | AxiosPost url body k => (w, Suspended (PendingPost url body k))
  end.

(** The awaited promise settles: the body resumes in the world as it is
    by then. *)
Definition resumeGet (p : Pending) (r : Reply (list Image)) (w : World)
  : World * Outcome :=
  match p, r with
  | PendingGet _ k, Resolved data => run (k data) w
  | PendingGet _ _, Rejected err => (w, Failed err)
  | PendingPost _ _ _, _ => (w, Suspended p)
  end.

Definition resumePost (p : Pending) (r : Reply Image) (w : World)
  : World * Outcome :=
  match p, r with
  | PendingPost _ _ k, Resolved data => run (k data) w
  | PendingPost _ _ _, Rejected err => (w, Failed err)
  | PendingGet _ _, _ => (w, Suspended p)
  end.

(** ** The handlers of one render

    Every handler is created anew by each render and closes over that
    render's values; [r] below is the state the render saw. *)

(** [{ ...post, title: v }] and its siblings. *)
Definition withTitle (p : FinalPost) (v : string) : FinalPost :=
  {| title := v; content := content p; thumbnail := thumbnail p;
     meta := meta p; tags := tags p; slug := slug p |}.

Definition withContent (p : FinalPost) (v : string) : FinalPost :=
  {| title := title p; content := v; thumbnail := thumbnail p;
     meta := meta p; tags := tags p; slug := slug p |}.

Definition withThumbnail (p : FinalPost) (v : Thumbnail) : FinalPost :=
  {| title := title p; content := content p; thumbnail := Some v;
     meta := meta p; tags := tags p; slug := slug p |}.

(** [{ ...post, ...result }] *)
Definition withSeo (p : FinalPost) (result : SeoResult) : FinalPost :=
  {| title := title p; content := content p; thumbnail := thumbnail p;
     meta := seo_meta result; tags := seo_tags result;
     slug := seo_slug result |}.

Definition fetchImages : Async :=
  AxiosGet "/api/images" (fun data_images =>
  Update (setImages data_images) Ret).

Definition handleImageUpload (r : State) (image : File) : Async :=
  Update (setUploading true)
  (AxiosPost "/api/images" [("image", image)] (fun data =>
   Update (setUploading false)
   (Update (setImages (data :: images r)) Ret))).

Definition updateTitle (r : State) (target_value : string) : Async :=
  Update (setPost (withTitle (post r) target_value)) Ret.

Definition updateSeoValue (r : State) (result : SeoResult) : Async :=
  Update (setPost (withSeo (post r) result)) Ret.

Definition updateThumbnail (r : State) (file : File) : Async :=
  Update (setPost (withThumbnail (post r) (LocalFile file))) Ret.

(** [editor?.call(...)]: the call is made when the render had an editor. *)
Definition optionalCall (r : State) (call : Editor -> Editor) (k : Async) : Async :=
  match editor r with
  | Some _ => Update (onEditor call) k
  | None => k
  end.

Definition handleImageSelect (r : State) (result : ImageSelectionResult) : Async :=
  optionalCall r
    (runChain [focus; setImage (sel_src result) (altText result)]) Ret.

Definition handleSubmit (r : State) : Async :=
  match editor r with
  | None => Ret
  | Some e => OnSubmit (withContent (post r) (getHTML e)) Ret
  end.

(** [editorProps.handleClick(view, pos, event)]; the view is the editor's. *)
Definition handleClick (view : Editor) (pos : Z) : Async :=
  match getMarkRange view pos link with
  | Some range => Update (setSelectionRange range) Ret
  | None => Ret
  end.

(** ** Effects *)

(** [useEffect(..., [editor, selectionRange])] *)
Definition selectionEffect (r : State) : Async :=
  match editor r, selectionRange r with
  | Some _, Some range => Update (onEditor (setTextSelection range)) Ret
  | _, _ => Ret
  end.

(** [useEffect(() => { fetchImages(); }, [])] *)
Definition mountEffect : Async := fetchImages.

(** [useEffect(..., [initialValue, editor])] *)
Definition hydrationEffect (props : Props) (r : State) : Async :=
  match initialValue props with
  | Some iv =>
      Update (setPost iv)
      (optionalCall r (setContent (content iv))
      (Update (setSeoInitialValue
                 {| seo_meta := meta iv; seo_slug := slug iv;
                    seo_tags := tags iv |})
       Ret))
  | None => Ret
  end.

(** ** Events

    What the rendered tree can call back with.  A handler that runs is the
    one of the latest render, so it closes over the current state. *)
Inductive Event :=
| TitleInput (target_value : string)
| SeoChange (result : SeoResult)
| ThumbnailChange (file : File)
| GallerySelect (result : ImageSelectionResult)
| GalleryFileSelect (image : File)
| SubmitClick
| EditorClick (pos : Z)
| OpenImageClick
| GalleryClose.

Definition handler (r : State) (ev : Event) : Async :=
  match ev with
  | TitleInput v => updateTitle r v
  | SeoChange result => updateSeoValue r result
  | ThumbnailChange file => updateThumbnail r file
  | GallerySelect result => handleImageSelect r result
  | GalleryFileSelect image => handleImageUpload r image
  | SubmitClick => handleSubmit r
  | EditorClick pos =>
      match editor r with
      | Some view => handleClick view pos
      | None => Ret
      end
  | OpenImageClick => Update (setShowGallery true) Ret
  | GalleryClose => Update (setShowGallery false) Ret
  end.

Definition dispatch (ev : Event) (w : World) : World * Outcome :=
  run (handler (hooks w) ev) w.

(** An effect runs after the render that scheduled it. *)
Definition runEffect (effect : State -> Async) (w : World) : World * Outcome :=
  run (effect (hooks w)) w.

(** ** The gallery calls, from start to settlement

    [uploadAsset image reply]: the file is picked in the gallery, the
    upload starts, and its promise settles with [reply] before anything
    else happens. *)
Definition uploadAsset (image : File) (reply : Reply Image) (w : World)
  : World * Outcome :=
  match dispatch (GalleryFileSelect image) w with
  | (w1, Suspended p) => resumePost p reply w1
  | settled => settled
  end.

(** [listAssets reply]: [fetchImages()] is called and its promise settles
    with [reply]. *)
Definition listAssets (reply : Reply (list Image)) (w : World)
  : World * Outcome :=
  match run fetchImages w with
  | (w1, Suspended p) => resumeGet p reply w1
  | settled => settled
  end.

(** The mount effect drops the promise of [fetchImages]: whatever the
    outcome, the session goes on in the resulting world. *)
Definition afterMountEffect (reply : Reply (list Image)) (w : World) : World :=
  match run mountEffect w with
  | (w1, Suspended p) => fst (resumeGet p reply w1)
  | (w1, _) => w1
  end.

(** [hydrate props]: the hydration effect has run.  [finalize]: the submit
    button was pressed. *)
Definition hydrate (props : Props) (w : World) : World :=
  fst (runEffect (hydrationEffect props) w).

Definition finalize (w : World) : World :=
  fst (dispatch SubmitClick w).

End Component.

(** The saved post of the hydration scenario. *)
Definition savedPost : FinalPost :=
  {| title := "Hi"; content := "<p>Hello</p>"; thumbnail := None;
     meta := "m"; tags := "t"; slug := "s" |}.

(** ** A minimal implementation of the interface

    It keeps the markup as set and the last selection; it serves to run
    the component on concrete inputs. *)
Module Plain.

Record editor_state := mkEditor {
  markup : string;
  selected : option Range
}.

Definition commandMarkup (c : ChainedCommand) : string :=
  match c with
  | focus => ""
  | setImage s a => "<img src='" ++ s ++ "' alt='" ++ a ++ "'>"
  end.

#[global] Instance api : EditorApi editor_state := {|
  getHTML := markup;
  setContent := fun c e => {| markup := c; selected := selected e |};
  setTextSelection := fun rg e => {| markup := markup e; selected := Some rg |};
  runChain := fun cs e =>
    {| markup := markup e ++ String.concat "" (map commandMarkup cs);
       selected := selected e |};
  getMarkRange := fun _ _ _ => None
|}.

Definition blank : editor_state := {| markup := ""; selected := None |}.

(** The component before and after [useEditor] has produced the instance. *)
Definition fresh : World (Editor := editor_state) :=
  {| hooks := initialState; submitted := [] |}.

Definition ready : World (Editor := editor_state) :=
  {| hooks := {| selectionRange := None; showGallery := false;
                 uploading := false; images := [];
                 seoInitialValue := None; post := emptyPost;
                 editor := Some blank |};
     submitted := [] |}.

(** A picked file and the error of a request that did not get through. *)
Definition photo : File := {| file_name := "photo.png"; file_bytes := [] |}.

Definition networkError : AxiosError := {| message := "Network Error" |}.

(** A draft whose meta description is already filled in. *)
Definition described : World (Editor := editor_state) :=
  {| hooks := setPost savedPost initialState; submitted := [] |}.

End Plain.

Section Events.

Context {Editor : Type} `{EditorApi Editor}.

(** An event and the effect its render schedules.  Only a click that
    resolved a range changes a dependency of an effect: [selectionRange]
    gets a new object, and the selection effect runs. *)
Definition settle (ev : Event) (w : World) : World :=
  let w1 := fst (dispatch ev w) in
  match ev, editor (hooks w) with
  | EditorClick pos, Some view =>
      match getMarkRange view pos link with
      | Some _ => fst (runEffect selectionEffect w1)
      | None => w1
      end
  | _, _ => w1
  end.

(** Events handled one after the other, each by the handler of the latest
    render; a call left suspended stays in flight. *)
Definition dispatchAll (evs : list Event) (w : World) : World :=
  fold_left (fun w' ev => settle ev w') evs w.

(** An upload during which the user goes on using the component: the
    events [evs] are handled between the start and the settlement. *)
Definition uploadDuring (evs : list Event) (image : File) (reply : Reply Image)
  (w : World) : World * Outcome :=
  match dispatch (GalleryFileSelect image) w with
  | (w1, Suspended p) => resumePost p reply (dispatchAll evs w1)
  | settled => settled
  end.

(** The gallery fetch, with the events [evs] handled while it is in
    flight. *)
Definition listAssetsDuring (evs : list Event) (reply : Reply (list Image))
  (w : World) : World * Outcome :=
  match run fetchImages w with
  | (w1, Suspended p) => resumeGet p reply (dispatchAll evs w1)
  | settled => settled
  end.

(** Two uploads started one after the other before either settles. *)
Definition uploadOverlapping (imageA imageB : File) (a b : Reply Image)
  (w : World) : World :=
  match dispatch (GalleryFileSelect imageA) w with
  | (w1, Suspended pA) =>
      match dispatch (GalleryFileSelect imageB) w1 with
      | (w2, Suspended pB) => fst (resumePost pB b (fst (resumePost pA a w2)))
      | (w2, _) => w2
      end
  | (w1, _) => w1
  end.

End Events.

(** ** Sessions

    The component over time.  JavaScript runs one callback to its end
    before the next: an event handler, an effect, or the continuation of a
    request that has settled.  Requests started and not yet settled are in
    flight, each with the continuation that awaits it; they settle in any
    order. *)
Section Sessions.

Context {Editor : Type} `{EditorApi Editor}.

Record Session := mkSession {
  now : @World Editor;
  inflight : list (@Pending Editor)
}.

Inductive Step :=
| Handle (ev : Event)
| MountFetch
| Hydration (props : Props)
| SettleGet (n : nat) (reply : Reply (list Image))
| SettlePost (n : nat) (reply : Reply Image).

Definition suspendedOf (o : @Outcome Editor) : list Pending :=
  match o with
  | Suspended p => [p]
  | _ => []
  end.

Fixpoint removeNth (n : nat) (l : list (@Pending Editor)) : list Pending :=
  match n, l with
  | _, [] => []
  | O, _ :: rest => rest
  | S m, p :: rest => p :: removeNth m rest
  end.

(** One callback.  [SettleGet n] and [SettlePost n] settle the [n]-th
    request in flight, when it is a GET, respectively a POST; a settlement
    that matches no request does not happen. *)
Definition step (a : Step) (s : Session) : Session :=
  match a with
  | Handle ev =>
      {| now := settle ev (now s);
         inflight := inflight s ++ suspendedOf (snd (dispatch ev (now s))) |}
  | MountFetch =>
      {| now := fst (run mountEffect (now s));
         inflight := inflight s ++ suspendedOf (snd (run mountEffect (now s))) |}
  | Hydration props =>
      {| now := hydrate props (now s);
         inflight := inflight s ++
           suspendedOf (snd (runEffect (hydrationEffect props) (now s))) |}
  | SettleGet n reply =>
      match nth_error (inflight s) n with
      | Some (PendingGet url k) =>
          {| now := fst (resumeGet (PendingGet url k) reply (now s));
             inflight := removeNth n (inflight s) ++
               suspendedOf (snd (resumeGet (PendingGet url k) reply (now s))) |}
      | _ => s
      end
  | SettlePost n reply =>
      match nth_error (inflight s) n with
      | Some (PendingPost url body k) =>
          {| now := fst (resumePost (PendingPost url body k) reply (now s));
             inflight := removeNth n (inflight s) ++
               suspendedOf
                 (snd (resumePost (PendingPost url body k) reply (now s))) |}
      | _ => s
      end
  end.

Definition runAll (steps : list Step) (s : Session) : Session :=
  fold_left (fun s' a => step a s') steps s.

(** A session that starts in [w] with nothing in flight. *)
Definition start (w : World) : Session := {| now := w; inflight := [] |}.

(** Classes of steps. *)
Definition isSubmit (a : Step) : bool :=
  match a with
  | Handle SubmitClick => true
  | _ => false
  end.

(** The three widgets of the draft, and hydration from an initial value. *)
Definition writesDraft (a : Step) : bool :=
  match a with
  | Handle (TitleInput _) | Handle (SeoChange _) | Handle (ThumbnailChange _) =>
      true
  | Hydration props =>
      match initialValue props with Some _ => true | None => false end
  | _ => false
  end.

(** The steps that call into the editor. *)
Definition callsEditor (a : Step) : bool :=
  match a with
  | Handle (GallerySelect _) | Handle (EditorClick _) => true
  | Hydration props =>
      match initialValue props with Some _ => true | None => false end
  | _ => false
  end.

Definition startsUpload (a : Step) : bool :=
  match a with
  | Handle (GalleryFileSelect _) => true
  | _ => false
  end.

Definition resolvesUpload (a : Step) : bool :=
  match a with
  | SettlePost _ (Resolved _) => true
  | _ => false
  end.

Definition resolvesRequest (a : Step) : bool :=
  match a with
  | SettleGet _ (Resolved _) | SettlePost _ (Resolved _) => true
  | _ => false
  end.

Definition togglesGallery (a : Step) : bool :=
  match a with
  | Handle OpenImageClick | Handle GalleryClose => true
  | _ => false
  end.

(** The updaters of the draft, among the events. *)
Definition isUpdater (ev : Event) : bool :=
  match ev with
  | TitleInput _ | SeoChange _ | ThumbnailChange _ => true
  | _ => false
  end.

Definition hasEditor (w : @World Editor) : bool :=
  match editor (hooks w) with
  | Some _ => true
  | None => false
  end.

(** The continuations the component leaves in flight: the one of
    [fetchImages], and the one of [handleImageUpload] with the gallery list
    its render saw. *)
Definition ownPending (p : @Pending Editor) : Prop :=
  match p with
  | PendingGet _ k => forall d, k d = Update (setImages d) Ret
  | PendingPost _ _ k =>
      exists captured, forall d,
        k d = Update (setUploading false)
                (Update (setImages (d :: captured)) Ret)
  end.

End Sessions.

(** ** The serialization contract of the engine

    The component hands markup to the editor and reads markup back.  What
    a markup string denotes is the engine's matter: [document] is the
    document an editor holds and [parse] the document a string denotes. *)
Section Engine.

Context {Editor : Type} `{EditorApi Editor} {Document : Type}.

Variables (document : Editor -> Document) (parse : string -> Document).

(** Modelled from the spec: the editing engine itself is a dependency and
    absent from the sources; its contract is "setContent(serializedString)
    -> document": after [setContent] the editor holds the document that the
    string denotes. *)
Definition SeedsParsed : Prop :=
  forall markup e, document (setContent markup e) = parse markup.

(** Modelled from the spec: the engine's round trip,
    "setContent(getSerializedContent(d)) == d": the markup serialized from
    an editor denotes the document the editor holds. *)
Definition RoundTrips : Prop :=
  forall e, parse (getHTML e) = document e.

(** Two markup strings are semantically identical when they denote the
    same document. *)
Definition sameDocument (markup1 markup2 : string) : Prop :=
  parse markup1 = parse markup2.

End Engine.

(** * Properties *)

Section Properties.

Context {Editor : Type} `{EditorApi Editor}.

Implicit Types (w : @World Editor) (ev : Event) (evs : list Event).

Ltac run_handler :=
  unfold dispatch, runEffect, handler, handleClick, handleSubmit,
    handleImageSelect, handleImageUpload, updateTitle, updateSeoValue,
    updateThumbnail, selectionEffect, hydrationEffect, optionalCall; cbn.

(** ** What a handler leaves alone *)

(** No handler touches the gallery list before its first [await]. *)
Lemma dispatch_images ev w :
  images (hooks (fst (dispatch ev w))) = images (hooks w).
Proof.
  destruct ev; run_handler; try reflexivity;
    destruct (editor (hooks w)) as [view|]; try reflexivity.
  destruct (getMarkRange view pos link); reflexivity.
Qed.

Lemma runEffect_selection_images w :
  images (hooks (fst (runEffect selectionEffect w))) = images (hooks w).
Proof.
  run_handler. destruct (editor (hooks w)), (selectionRange (hooks w));
    reflexivity.
Qed.

Lemma settle_images ev w :
  images (hooks (settle ev w)) = images (hooks w).
Proof.
  unfold settle.
  destruct ev; try apply dispatch_images.
  destruct (editor (hooks w)) as [view|]; [|apply dispatch_images].
  destruct (getMarkRange view pos link); [|apply dispatch_images].
  rewrite runEffect_selection_images. apply dispatch_images.
Qed.

Lemma dispatchAll_images evs w :
  images (hooks (dispatchAll evs w)) = images (hooks w).
Proof.
  revert w. induction evs as [|ev evs IH]; intro w; [reflexivity|].
  cbn. unfold dispatchAll in IH. rewrite IH. apply settle_images.
Qed.

(** Starting an upload raises the flag and suspends at the POST, with the
    gallery list of the render captured in the continuation. *)
Lemma upload_start w image :
  dispatch (GalleryFileSelect image) w =
    ({| hooks := setUploading true (hooks w); submitted := submitted w |},
     Suspended (PendingPost "/api/images" [("image", image)] (fun data =>
       Update (setUploading false)
       (Update (setImages (data :: images (hooks w))) Ret)))).
Proof. reflexivity. Qed.

Lemma uploadAsset_during_nil image reply w :
  uploadAsset image reply w = uploadDuring [] image reply w.
Proof. reflexivity. Qed.

(** A successful upload, whatever was handled meanwhile: the list becomes
    the new entry in front of the list the starting render saw. *)
Lemma uploadDuring_resolved evs image data w :
  let w' := fst (uploadDuring evs image (Resolved data) w) in
  images (hooks w') = data :: images (hooks w) /\
  uploading (hooks w') = false /\
  snd (uploadDuring evs image (Resolved data) w) = Completed.
Proof.
  unfold uploadDuring. rewrite upload_start. cbn. auto.
Qed.

(** A rejected upload resumes nothing: the world is the one the rejection
    found. *)
Lemma uploadDuring_rejected evs image err w :
  uploadDuring evs image (Rejected err) w =
    (dispatchAll evs (fst (dispatch (GalleryFileSelect image) w)), Failed err).
Proof.
  unfold uploadDuring. rewrite upload_start. reflexivity.
Qed.

(** ** Uploads *)

(** C4: successful uploads prepend to the cached gallery list, most recent
    first.  From any cached list, when the upload of [fileA] succeeds with
    entry [a] and then the upload of [fileB] succeeds with entry [b], the
    cached list is [b], [a], then the previous list unchanged and in its
    prior order; both calls return normally. *)
Theorem upload_prepends_most_recent_first w fileA fileB (a b : Image) :
  let wA := fst (uploadAsset fileA (Resolved a) w) in
  let wB := fst (uploadAsset fileB (Resolved b) wA) in
  images (hooks wA) = a :: images (hooks w) /\
  images (hooks wB) = b :: a :: images (hooks w) /\
  snd (uploadAsset fileA (Resolved a) w) = Completed /\
  snd (uploadAsset fileB (Resolved b) wA) = Completed.
Proof.
  cbn zeta. rewrite !uploadAsset_during_nil.
  destruct (uploadDuring_resolved [] fileA a w) as (HA & _ & HoA).
  destruct (uploadDuring_resolved [] fileB b
              (fst (uploadDuring [] fileA (Resolved a) w))) as (HB & _ & HoB).
  cbn zeta in *. rewrite HB, HA. auto.
Qed.

(** The same order holds when other events are handled before, between,
    during and after the two uploads, as long as the second upload starts
    after the first has settled. *)
Lemma upload_prepends_while_editing w evs0 evs1 evs2 evs3 evs4 fileA fileB
  (a b : Image) :
  let wA := fst (uploadDuring evs1 fileA (Resolved a) (dispatchAll evs0 w)) in
  let wB := fst (uploadDuring evs3 fileB (Resolved b) (dispatchAll evs2 wA)) in
  images (hooks (dispatchAll evs4 wB)) = b :: a :: images (hooks w).
Proof.
  cbn zeta. rewrite dispatchAll_images.
  destruct (uploadDuring_resolved evs3 fileB b
    (dispatchAll evs2
       (fst (uploadDuring evs1 fileA (Resolved a) (dispatchAll evs0 w)))))
    as (HB & _).
  cbn zeta in HB. rewrite HB, dispatchAll_images.
  destruct (uploadDuring_resolved evs1 fileA a (dispatchAll evs0 w)) as (HA & _).
  cbn zeta in HA. rewrite HA, dispatchAll_images. reflexivity.
Qed.

(** When the second upload starts while the first is still in flight, both
    continuations hold the list of the same render, and the one that
    settles last decides the list. *)
Remark overlapping_uploads_keep_last w fileA fileB (a b : Image) :
  images (hooks (uploadOverlapping fileA fileB (Resolved a) (Resolved b) w))
    = b :: images (hooks w).
Proof. reflexivity. Qed.

(** What a failed upload leaves alone.  From any state, when the POST of an
    upload is rejected, the call ends with that error for its caller, the
    cached gallery list is unchanged, and so are the editor with its
    document, the post draft, the selection, the SEO seed, the gallery
    visibility and what was submitted; events handled while the upload was
    in flight keep their effect, the rejection changing nothing. *)
Theorem upload_failure_isolated w image err :
  let w' := fst (uploadAsset image (Rejected err) w) in
  snd (uploadAsset image (Rejected err) w) = Failed err /\
  images (hooks w') = images (hooks w) /\
  editor (hooks w') = editor (hooks w) /\
  post (hooks w') = post (hooks w) /\
  selectionRange (hooks w') = selectionRange (hooks w) /\
  seoInitialValue (hooks w') = seoInitialValue (hooks w) /\
  showGallery (hooks w') = showGallery (hooks w) /\
  submitted w' = submitted w /\
  forall evs,
    uploadDuring evs image (Rejected err) w =
      (dispatchAll evs (fst (dispatch (GalleryFileSelect image) w)), Failed err).
Proof.
  cbn zeta. rewrite uploadAsset_during_nil, uploadDuring_rejected.
  repeat (split; [reflexivity|]). intro evs. apply uploadDuring_rejected.
Qed.

(** C5: a failed upload should surface its error and leave the in-memory
    state as it was.  The code surfaces the error, but does not leave the
    state as it was: from any state with the flag down, after an upload
    whose POST is rejected the world is the world before the call with
    [uploading] raised, which is not the world before the call. *)
Theorem upload_failure_changes_state w image err :
  uploading (hooks w) = false ->
  snd (uploadAsset image (Rejected err) w) = Failed err /\
  fst (uploadAsset image (Rejected err) w) =
    {| hooks := setUploading true (hooks w); submitted := submitted w |} /\
  fst (uploadAsset image (Rejected err) w) <> w.
Proof.
  intro Hdown. split; [reflexivity|]. split; [reflexivity|].
  intro Hsame. apply (f_equal (fun w' => uploading (hooks w'))) in Hsame.
  cbn in Hsame. rewrite Hdown in Hsame. discriminate.
Qed.

(** The [uploading] flag is set while an upload is in flight and cleared
    when it succeeds. *)
Lemma uploading_while_in_flight w image :
  uploading (hooks (fst (dispatch (GalleryFileSelect image) w))) = true.
Proof. reflexivity. Qed.

Lemma uploading_cleared_on_success w image (data : Image) :
  uploading (hooks (fst (uploadAsset image (Resolved data) w))) = false.
Proof. reflexivity. Qed.

(** C9: the [uploading] flag should hold exactly while an upload is in
    flight, and be cleared when the upload completes, also when it fails.
    The code does not clear it on failure: from any state, after an upload
    whose POST is rejected the flag is [true], although nothing is in
    flight any more. *)
Theorem uploading_stuck_after_failure w image err :
  snd (uploadAsset image (Rejected err) w) = Failed err /\
  uploading (hooks (fst (uploadAsset image (Rejected err) w))) = true.
Proof. split; reflexivity. Qed.

(** ** Listing the gallery *)

Lemma listAssets_resolved w (data_images : list Image) :
  listAssets (Resolved data_images) w =
    ({| hooks := setImages data_images (hooks w); submitted := submitted w |},
     Completed).
Proof. reflexivity. Qed.

(** C8: a failed gallery fetch is not fatal.  When the GET is rejected,
    [fetchImages] ends with that error and changes nothing: the world after
    the mount effect is the world before it, so the list is the empty or
    previously cached one, every later event is handled as it would have
    been, what was edited while the fetch was in flight stands as it is,
    and a later fetch that succeeds installs the fetched list. *)
Theorem listAssets_failure_nonfatal w err :
  listAssets (Rejected err) w = (w, Failed err) /\
  afterMountEffect (Rejected err) w = w /\
  (forall ev, dispatch ev (afterMountEffect (Rejected err) w) = dispatch ev w) /\
  (forall evs,
     listAssetsDuring evs (Rejected err) w = (dispatchAll evs w, Failed err)) /\
  (forall data_images,
     images (hooks (fst (listAssets (Resolved data_images)
                           (afterMountEffect (Rejected err) w)))) = data_images /\
     snd (listAssets (Resolved data_images) (afterMountEffect (Rejected err) w))
       = Completed).
Proof.
  assert (Hm : afterMountEffect (Rejected err) w = w) by reflexivity.
  split; [reflexivity|]. split; [exact Hm|]. rewrite Hm.
  split; [reflexivity|]. split; [reflexivity|]. intro; split; reflexivity.
Qed.

(** ** Submitting *)

(** C10: finalization is guarded on an initialised engine.  In every state
    in which [useEditor] has not yet produced the editor, the submit
    handler returns without calling [onSubmit]: the world, and with it the
    list of submitted posts, is unchanged. *)
Theorem submit_guarded_on_editor w :
  editor (hooks w) = None ->
  dispatch SubmitClick w = (w, Completed) /\
  submitted (finalize w) = submitted w.
Proof.
  intro Hnone. unfold finalize, dispatch. cbn. unfold handleSubmit.
  rewrite Hnone. split; reflexivity.
Qed.

(** With an editor, the handler hands [onSubmit] one post: the draft with
    its content replaced by the editor's current markup. *)
Lemma submit_with_editor w e :
  editor (hooks w) = Some e ->
  dispatch SubmitClick w =
    ({| hooks := hooks w;
        submitted := submitted w ++
          [ {| title := title (post (hooks w)); content := getHTML e;
               thumbnail := thumbnail (post (hooks w));
               meta := meta (post (hooks w)); tags := tags (post (hooks w));
               slug := slug (post (hooks w)) |} ] |},
     Completed).
Proof.
  intro Hsome. unfold dispatch. cbn. unfold handleSubmit.
  rewrite Hsome. reflexivity.
Qed.

(** ** Hydration *)

(** The hydration effect with an initial value and an editor: the draft is
    a copy of the initial value, the editor is seeded with its content and
    the SEO form with its three fields. *)
Lemma hydrate_sets_all w e iv btn b :
  editor (hooks w) = Some e ->
  let w' := hydrate {| initialValue := Some iv; btnTitle := btn; busy := b |} w in
  post (hooks w') = iv /\
  editor (hooks w') = Some (setContent (content iv) e) /\
  seoInitialValue (hooks w') =
    Some {| seo_meta := meta iv; seo_slug := slug iv; seo_tags := tags iv |} /\
  images (hooks w') = images (hooks w) /\
  submitted w' = submitted w.
Proof.
  intro Hsome. unfold hydrate, runEffect, hydrationEffect, optionalCall. cbn.
  rewrite Hsome. cbn. rewrite Hsome. repeat (split; [reflexivity|]).
  reflexivity.
Qed.

(** Hydration followed by finalization, for every editor.  For
    the saved post with title Hi, content <p>Hello</p>, meta m, slug s and
    tags t, and an initialised editor, the hydration effect sets every
    draft field, seeds the editor through [setContent] and seeds the SEO
    form; the submit that follows hands [onSubmit] exactly one post, whose
    title, meta, slug and tags are the saved ones and whose content is the
    markup freshly serialized from the document that [setContent] built
    from the saved content. *)
Theorem hydrate_then_finalize w e btn b :
  editor (hooks w) = Some e ->
  let w' := hydrate {| initialValue := Some savedPost; btnTitle := btn;
                       busy := b |} w in
  post (hooks w') = savedPost /\
  editor (hooks w') = Some (setContent "<p>Hello</p>" e) /\
  seoInitialValue (hooks w') =
    Some {| seo_meta := "m"; seo_slug := "s"; seo_tags := "t" |} /\
  submitted (finalize w') =
    (submitted w ++
     [ {| title := "Hi";
          content := getHTML (setContent "<p>Hello</p>" e);
          thumbnail := None; meta := "m"; tags := "t"; slug := "s" |} ])%list.
Proof.
  intro Hsome.
  destruct (hydrate_sets_all w savedPost btn b Hsome) as (Hp & He & Hs & _ & Hsub).
  cbn zeta in *. repeat (split; [assumption|]).
  unfold finalize. rewrite (submit_with_editor _ He). cbn.
  rewrite Hp, Hsub. reflexivity.
Qed.

(** C6: hydration followed by finalization reproduces the saved post.  For
    the saved post with title Hi, content <p>Hello</p>, meta m, slug s and
    tags t, and an initialised editor whose engine keeps its serialization
    contract, the hydration effect sets every draft field and seeds the
    document through [setContent]; the submit that follows hands
    [onSubmit] exactly one post, whose title, meta, slug and tags are the
    saved ones, and whose content is freshly serialized from the editor
    and denotes the same document as the saved content. *)
Theorem hydrate_finalize_reproduces_saved_post
  {Document : Type} (document : Editor -> Document)
  (parse : string -> Document) w e btn b :
  SeedsParsed document parse -> RoundTrips document parse ->
  editor (hooks w) = Some e ->
  let w' := hydrate {| initialValue := Some savedPost; btnTitle := btn;
                       busy := b |} w in
  post (hooks w') = savedPost /\
  seoInitialValue (hooks w') =
    Some {| seo_meta := "m"; seo_slug := "s"; seo_tags := "t" |} /\
  editor (hooks w') = Some (setContent "<p>Hello</p>" e) /\
  document (setContent "<p>Hello</p>" e) = parse "<p>Hello</p>" /\
  submitted (finalize w') =
    (submitted w ++
     [ {| title := "Hi";
          content := getHTML (setContent "<p>Hello</p>" e);
          thumbnail := None; meta := "m"; tags := "t"; slug := "s" |} ])%list /\
  sameDocument parse (getHTML (setContent "<p>Hello</p>" e)) "<p>Hello</p>".
Proof.
  intros Hseed Hround Hsome.
  destruct (hydrate_sets_all w savedPost btn b Hsome)
    as (Hp & He & Hs & _ & Hsub).
  cbn zeta in *. repeat (split; [assumption|]).
  split; [apply Hseed|]. split.
  - unfold finalize. rewrite (submit_with_editor _ He). cbn.
    rewrite Hp, Hsub. reflexivity.
  - unfold sameDocument. rewrite Hround. apply Hseed.
Qed.

(** ** Editing the draft *)

(** C7, as amended: every updater of the draft touches its own slice only.
    The title input sets [title] alone, the thumbnail picker sets
    [thumbnail] alone, and the SEO form sets [meta], [slug] and [tags]
    together from its result, leaving [title], [content] and [thumbnail];
    in particular, after the title is set to X and the SEO form then
    reports slug y, the draft has both, and its content, its thumbnail and
    the editor are untouched. *)
Theorem field_updates_touch_own_slice w :
  let p := post (hooks w) in
  (forall v,
     let p' := post (hooks (fst (dispatch (TitleInput v) w))) in
     title p' = v /\ content p' = content p /\ thumbnail p' = thumbnail p /\
     meta p' = meta p /\ tags p' = tags p /\ slug p' = slug p) /\
  (forall file,
     let p' := post (hooks (fst (dispatch (ThumbnailChange file) w))) in
     thumbnail p' = Some (LocalFile file) /\ title p' = title p /\
     content p' = content p /\
     meta p' = meta p /\ tags p' = tags p /\ slug p' = slug p) /\
  (forall result,
     let p' := post (hooks (fst (dispatch (SeoChange result) w))) in
     meta p' = seo_meta result /\ slug p' = seo_slug result /\
     tags p' = seo_tags result /\
     title p' = title p /\ content p' = content p /\
     thumbnail p' = thumbnail p) /\
  (forall m t,
     let w' := dispatchAll
                 [TitleInput "X";
                  SeoChange {| seo_meta := m; seo_slug := "y"; seo_tags := t |}]
                 w in
     title (post (hooks w')) = "X" /\ slug (post (hooks w')) = "y" /\
     content (post (hooks w')) = content p /\
     thumbnail (post (hooks w')) = thumbnail p /\
     editor (hooks w') = editor (hooks w)).
Proof.
  cbn zeta. repeat split.
Qed.

(** The three updaters change the [post] hook and nothing else. *)
Lemma field_update_frame w ev :
  match ev with
  | TitleInput _ | SeoChange _ | ThumbnailChange _ =>
      dispatch ev w =
        ({| hooks := setPost (post (hooks (fst (dispatch ev w)))) (hooks w);
            submitted := submitted w |}, Completed)
  | _ => True
  end.
Proof. destruct ev; try exact I; reflexivity. Qed.

(** Two updaters taken from one and the same render both spread the
    [post] of that render: the second one undoes the first. *)
Remark updaters_of_one_render_overwrite w v result :
  title (post (hooks (fst
    (run (updateSeoValue (hooks w) result)
         (fst (run (updateTitle (hooks w) v) w))))))
  = title (post (hooks w)).
Proof. reflexivity. Qed.

(** ** Calls into the editor

    The click handler stores what [getMarkRange] resolved for the link mark
    at the clicked position, and nothing when it resolved no range; the
    gallery selection runs one chain, [focus] then [setImage]. *)
Lemma click_stores_resolved_range w e pos :
  editor (hooks w) = Some e ->
  dispatch (EditorClick pos) w =
    match getMarkRange e pos link with
    | Some range =>
        ({| hooks := setSelectionRange range (hooks w);
            submitted := submitted w |}, Completed)
    | None => (w, Completed)
    end.
Proof.
  intro Hsome. unfold dispatch. cbn. rewrite Hsome. unfold handleClick.
  destruct (getMarkRange e pos link); reflexivity.
Qed.

Lemma image_select_runs_one_chain w result :
  dispatch (GallerySelect result) w =
    match editor (hooks w) with
    | Some _ =>
        ({| hooks := onEditor
                       (runChain [focus;
                                  setImage (sel_src result) (altText result)])
                       (hooks w);
            submitted := submitted w |}, Completed)
    | None => (w, Completed)
    end.
Proof.
  unfold dispatch. cbn. unfold handleImageSelect, optionalCall.
  destruct (editor (hooks w)); reflexivity.
Qed.

End Properties.

(** * Concrete runs *)

Lemma submit_guarded_on_editor_witness :
  editor (hooks Plain.fresh) = None /\
  dispatch SubmitClick Plain.fresh = (Plain.fresh, Completed) /\
  submitted (finalize Plain.fresh) = submitted Plain.fresh.
Proof.
  split; [reflexivity|].
  apply (submit_guarded_on_editor Plain.fresh). reflexivity.
Defined.

Lemma hydrate_then_finalize_witness :
  editor (hooks Plain.ready) = Some Plain.blank /\
  submitted
    (finalize
       (hydrate {| initialValue := Some savedPost; btnTitle := "Submit";
                   busy := false |} Plain.ready))
  = [ {| title := "Hi"; content := "<p>Hello</p>"; thumbnail := None;
         meta := "m"; tags := "t"; slug := "s" |} ].
Proof.
  split; [reflexivity|].
  exact (proj2 (proj2 (proj2
    (hydrate_then_finalize Plain.ready (e := Plain.blank) "Submit" false
       eq_refl)))).
Defined.

(** On the freshly mounted component a failed upload leaves the flag up. *)
Example failed_upload_on_fresh :
  uploading (hooks Plain.fresh) = false /\
  uploadAsset Plain.photo (Rejected Plain.networkError) Plain.fresh =
    ({| hooks := setUploading true initialState; submitted := [] |},
     Failed Plain.networkError).
Proof. split; reflexivity. Qed.

(** C7, as stated, fails: setting the slug is done by the SEO updater, which
    writes all three SEO fields of its result; here the meta description
    m of the draft is replaced by the empty one of the result. *)
Lemma seo_update_overwrites_meta :
  slug (post (hooks (fst (dispatch
     (SeoChange {| seo_meta := ""; seo_slug := "y"; seo_tags := "t" |})
     Plain.described)))) = "y" /\
  meta (post (hooks (fst (dispatch
     (SeoChange {| seo_meta := ""; seo_slug := "y"; seo_tags := "t" |})
     Plain.described)))) <> meta (post (hooks Plain.described)).
Proof. split; [reflexivity | discriminate]. Qed.

(** * Sessions: what changes what *)

Section SessionProperties.

Context {Editor : Type} `{EditorApi Editor}.

Implicit Types (w : @World Editor) (s : @Session Editor) (a : Step)
  (steps : list Step) (ev : Event).

Ltac unfold_handlers :=
  unfold settle, dispatch, runEffect, hydrate, handler, handleClick,
    handleSubmit, handleImageSelect, handleImageUpload, updateTitle,
    updateSeoValue, updateThumbnail, selectionEffect, hydrationEffect,
    optionalCall, mountEffect, fetchImages; cbn.

(** ** Requests in flight *)

Lemma dispatch_own ev w :
  Forall ownPending (suspendedOf (snd (dispatch ev w))).
Proof.
  destruct ev; unfold_handlers; try (constructor; fail).
  - destruct (editor (hooks w)); constructor.
  - repeat constructor. exists (images (hooks w)). reflexivity.
  - destruct (editor (hooks w)); constructor.
  - destruct (editor (hooks w)) as [view|]; [|constructor].
    destruct (getMarkRange view pos link); constructor.
Qed.

Lemma hydration_own props w :
  Forall ownPending (suspendedOf (snd (runEffect (hydrationEffect props) w))).
Proof.
  unfold_handlers. destruct (initialValue props); [|constructor].
  cbn. destruct (editor (hooks w)); constructor.
Qed.

Lemma removeNth_own n (l : list (@Pending Editor)) :
  Forall ownPending l -> Forall ownPending (removeNth n l).
Proof.
  intro Hl. revert n. induction Hl as [|p l Hp Hl IH]; intro n.
  - destruct n; constructor.
  - destruct n; cbn; [assumption|]. constructor; [assumption|apply IH].
Qed.

Lemma nth_own n (l : list (@Pending Editor)) p :
  Forall ownPending l -> nth_error l n = Some p -> ownPending p.
Proof.
  intros Hl Hn. rewrite Forall_forall in Hl. apply Hl.
  eapply nth_error_In; eassumption.
Qed.

(** What a settlement does to the world. *)
Lemma resumeGet_own url k reply w :
  ownPending (PendingGet url k) ->
  resumeGet (PendingGet url k) reply w =
    match reply with
    | Resolved d =>
        ({| hooks := setImages d (hooks w); submitted := submitted w |},
         Completed)
    | Rejected err => (w, Failed err)
    end.
Proof.
  intro Hk. destruct reply as [d|err]; [|reflexivity].
  cbn in *. rewrite Hk. reflexivity.
Qed.

Lemma resumePost_own url body k w :
  ownPending (PendingPost url body k) ->
  exists captured, forall reply,
    resumePost (PendingPost url body k) reply w =
      match reply with
      | Resolved d =>
          ({| hooks := setImages (d :: captured) (setUploading false (hooks w));
              submitted := submitted w |}, Completed)
      | Rejected err => (w, Failed err)
      end.
Proof.
  intros [captured Hk]. exists captured. intros [d|err]; [|reflexivity].
  cbn. rewrite Hk. reflexivity.
Qed.

Lemma step_own a s :
  Forall ownPending (inflight s) -> Forall ownPending (inflight (step a s)).
Proof.
  intro Hs. destruct a as [ev| |props|n reply|n reply]; unfold step.
  - apply Forall_app. split; [assumption|apply dispatch_own].
  - apply Forall_app. split; [assumption|]. repeat constructor.
  - apply Forall_app. split; [assumption|apply hydration_own].
  - destruct (nth_error (inflight s) n) as [[url k|url body k]|] eqn:Hn;
      try assumption.
    rewrite (resumeGet_own reply (now s) (nth_own _ Hs Hn)).
    apply Forall_app. split; [apply removeNth_own; assumption|].
    destruct reply; constructor.
  - destruct (nth_error (inflight s) n) as [[url k|url body k]|] eqn:Hn;
      try assumption.
    destruct (resumePost_own (now s) (nth_own _ Hs Hn)) as [captured Hr].
    rewrite Hr.
    apply Forall_app. split; [apply removeNth_own; assumption|].
    destruct reply; constructor.
Qed.

Lemma runAll_own steps s :
  Forall ownPending (inflight s) ->
  Forall ownPending (inflight (runAll steps s)).
Proof.
  revert s. induction steps as [|a steps IH]; intros s Hs; [assumption|].
  cbn. apply IH. apply step_own. assumption.
Qed.

(** A property kept by every allowed step is kept by a whole run. *)
Lemma runAll_keeps (P : Session -> Prop) (allowed : Step -> bool) :
  (forall a s, Forall ownPending (inflight s) -> allowed a = true ->
     P s -> P (step a s)) ->
  forall steps s, Forall ownPending (inflight s) ->
    forallb allowed steps = true -> P s -> P (runAll steps s).
Proof.
  intros Hstep steps. induction steps as [|a steps IH]; intros s Hs Hall HP;
    [assumption|].
  cbn in Hall. apply andb_true_iff in Hall as [Ha Hall].
  cbn. apply IH; [apply step_own; assumption|assumption|].
  apply Hstep; assumption.
Qed.

(** The world after a settlement: as it was, or with the gallery list
    replaced (and, for an upload, the flag cleared). *)
Lemma settleGet_world n reply s :
  Forall ownPending (inflight s) ->
  now (step (SettleGet n reply) s) = now s \/
  exists d, reply = Resolved d /\
    now (step (SettleGet n reply) s) =
      {| hooks := setImages d (hooks (now s));
         submitted := submitted (now s) |}.
Proof.
  intro Hs. unfold step.
  destruct (nth_error (inflight s) n) as [[url k|url body k]|] eqn:Hn;
    try (left; reflexivity).
  rewrite (resumeGet_own reply (now s) (nth_own _ Hs Hn)).
  destruct reply as [d|err]; [right; exists d; split; reflexivity|].
  left; reflexivity.
Qed.

Lemma settlePost_world n reply s :
  Forall ownPending (inflight s) ->
  now (step (SettlePost n reply) s) = now s \/
  exists d captured, reply = Resolved d /\
    now (step (SettlePost n reply) s) =
      {| hooks := setImages (d :: captured)
                    (setUploading false (hooks (now s)));
         submitted := submitted (now s) |}.
Proof.
  intro Hs. unfold step.
  destruct (nth_error (inflight s) n) as [[url k|url body k]|] eqn:Hn;
    try (left; reflexivity).
  destruct (resumePost_own (now s) (nth_own _ Hs Hn)) as [captured Hr].
  rewrite Hr.
  destruct reply as [d|err];
    [right; exists d, captured; split; reflexivity|].
  left; reflexivity.
Qed.

(** Settlements reduce to their two worlds; the other steps compute. *)
Ltac by_step a s Hs :=
  let n := fresh "n" in
  let reply := fresh "reply" in
  let ev := fresh "ev" in
  let props := fresh "props" in
  let d := fresh "d" in
  let captured := fresh "captured" in
  let Hr := fresh "Hr" in
  let Hw := fresh "Hw" in
  destruct a as [ev| |props|n reply|n reply];
  [ destruct ev
  |
  |
  | destruct (settleGet_world n reply s Hs) as [Hw|(d & Hr & Hw)];
    rewrite Hw; clear Hw; [|subst reply]
  | destruct (settlePost_world n reply s Hs) as [Hw|(d & captured & Hr & Hw)];
    rewrite Hw; clear Hw; [|subst reply] ];
  try discriminate; try assumption.

Ltac split_editor :=
  repeat (cbn;
    match goal with
    | Hed : editor (hooks ?w) = _ |- context [editor (hooks ?w)] =>
        rewrite Hed
    | Hrange : getMarkRange ?e ?p link = _
      |- context [getMarkRange ?e ?p link] => rewrite Hrange
    | |- context [editor (hooks ?w)] =>
        is_var w; destruct (editor (hooks w)) as [?view|] eqn:?Hed
    | |- context [getMarkRange ?e ?p link] =>
        destruct (getMarkRange e p link) eqn:?Hrange
    | |- context [initialValue ?p] =>
        is_var p; destruct (initialValue p) eqn:?Hiv
    end).

(** ** The draft *)

Lemma step_post a s :
  Forall ownPending (inflight s) -> writesDraft a = false ->
  post (hooks (now (step a s))) = post (hooks (now s)).
Proof.
  intros Hs Ha. destruct s as [w pending]. cbn [now inflight] in *.
  by_step a {| now := w; inflight := pending |} Hs; cbn in Ha;
    try discriminate; try reflexivity;
    cbn [step now]; unfold_handlers; split_editor; try discriminate;
    reflexivity.
Qed.

Ltac frame_step a s Hs Ha :=
  destruct s as [?w ?pending]; cbn [now inflight] in *;
  by_step a {| now := w; inflight := pending |} Hs; cbn in Ha;
  try discriminate; try reflexivity;
  cbn [step now]; unfold_handlers; split_editor; try discriminate;
  try reflexivity; try assumption.

(** X1: the draft is written by its three widgets and by hydration from an
    initial value, and by nothing else.  Along any run without such a step,
    from any state with nothing in flight, the draft stays as it was:
    gallery traffic (started, resolved or rejected), clicks in the editor,
    image insertions and submits never touch it. *)
Theorem draft_written_only_by_its_widgets w steps :
  forallb (fun a => negb (writesDraft a)) steps = true ->
  post (hooks (now (runAll steps (start w)))) = post (hooks w).
Proof.
  intro Hsteps.
  apply (runAll_keeps (fun s => post (hooks (now s)) = post (hooks w))
           (fun a => negb (writesDraft a))); try assumption;
    [|constructor|reflexivity].
  intros a s Hs Ha HP. rewrite <- HP.
  apply step_post; [assumption|]. apply negb_true_iff. assumption.
Qed.

(** ** The editor *)

Lemma step_editor a s :
  Forall ownPending (inflight s) -> callsEditor a = false ->
  editor (hooks (now (step a s))) = editor (hooks (now s)).
Proof. intros Hs Ha. frame_step a s Hs Ha. Qed.

(** X2: the editor, and with it the document, is reached only by an image
    selection, a click in the editor and hydration from an initial value.
    Along any run without such a step the editor instance is exactly as it
    was: typing a title, the SEO form, the thumbnail picker, opening and
    closing the gallery, submitting, and the gallery requests with their
    settlements leave the document alone. *)
Theorem editor_reached_only_by_its_callers w steps :
  forallb (fun a => negb (callsEditor a)) steps = true ->
  editor (hooks (now (runAll steps (start w)))) = editor (hooks w).
Proof.
  intro Hsteps.
  apply (runAll_keeps (fun s => editor (hooks (now s)) = editor (hooks w))
           (fun a => negb (callsEditor a))); try assumption;
    [|constructor|reflexivity].
  intros a s Hs Ha HP. rewrite <- HP.
  apply step_editor; [assumption|]. apply negb_true_iff. assumption.
Qed.

(** ** The gallery *)

Lemma step_images a s :
  Forall ownPending (inflight s) -> resolvesRequest a = false ->
  images (hooks (now (step a s))) = images (hooks (now s)).
Proof. intros Hs Ha. frame_step a s Hs Ha. Qed.

(** X3: the cached gallery list changes only when a gallery request
    resolves.  Along any run in which no request resolves, whatever is
    handled, started or rejected, the list is the one the run began
    with. *)
Theorem gallery_list_changes_only_on_resolution w steps :
  forallb (fun a => negb (resolvesRequest a)) steps = true ->
  images (hooks (now (runAll steps (start w)))) = images (hooks w).
Proof.
  intro Hsteps.
  apply (runAll_keeps (fun s => images (hooks (now s)) = images (hooks w))
           (fun a => negb (resolvesRequest a))); try assumption;
    [|constructor|reflexivity].
  intros a s Hs Ha HP. rewrite <- HP.
  apply step_images; [assumption|]. apply negb_true_iff. assumption.
Qed.

Lemma step_showGallery a s :
  Forall ownPending (inflight s) -> togglesGallery a = false ->
  showGallery (hooks (now (step a s))) = showGallery (hooks (now s)).
Proof. intros Hs Ha. frame_step a s Hs Ha. Qed.

(** X4: the gallery modal is shown and hidden only by its open and close
    callbacks.  In particular neither selecting an image nor picking a file
    nor the end of an upload closes it. *)
Theorem gallery_shown_only_by_open_and_close w steps :
  forallb (fun a => negb (togglesGallery a)) steps = true ->
  showGallery (hooks (now (runAll steps (start w)))) = showGallery (hooks w).
Proof.
  intro Hsteps.
  apply (runAll_keeps
           (fun s => showGallery (hooks (now s)) = showGallery (hooks w))
           (fun a => negb (togglesGallery a))); try assumption;
    [|constructor|reflexivity].
  intros a s Hs Ha HP. rewrite <- HP.
  apply step_showGallery; [assumption|]. apply negb_true_iff. assumption.
Qed.

(** ** The uploading flag *)

Lemma step_uploading_stays a s :
  Forall ownPending (inflight s) -> resolvesUpload a = false ->
  uploading (hooks (now s)) = true ->
  uploading (hooks (now (step a s))) = true.
Proof. intros Hs Ha Hup. frame_step a s Hs Ha. Qed.

(** X5: once raised, the uploading flag is lowered only by an upload that
    resolves.  Along any run in which no upload resolves, it stays raised
    whatever else the user does, also after the upload that raised it was
    rejected. *)
Theorem uploading_lowered_only_by_resolved_upload w steps :
  uploading (hooks w) = true ->
  forallb (fun a => negb (resolvesUpload a)) steps = true ->
  uploading (hooks (now (runAll steps (start w)))) = true.
Proof.
  intros Hup Hsteps.
  apply (runAll_keeps (fun s => uploading (hooks (now s)) = true)
           (fun a => negb (resolvesUpload a))); try assumption;
    [|constructor].
  intros a s Hs Ha HP.
  apply step_uploading_stays; try assumption.
  apply negb_true_iff. assumption.
Qed.

Lemma step_uploading_idle a s :
  Forall ownPending (inflight s) -> startsUpload a = false ->
  uploading (hooks (now s)) = false ->
  uploading (hooks (now (step a s))) = false.
Proof. intros Hs Ha Hup. frame_step a s Hs Ha. Qed.

(** X6: the uploading flag is raised only by picking a file.  From a state
    with the flag down and nothing in flight, a run in which no file is
    picked keeps it down. *)
Theorem uploading_raised_only_by_file_select w steps :
  uploading (hooks w) = false ->
  forallb (fun a => negb (startsUpload a)) steps = true ->
  uploading (hooks (now (runAll steps (start w)))) = false.
Proof.
  intros Hup Hsteps.
  apply (runAll_keeps (fun s => uploading (hooks (now s)) = false)
           (fun a => negb (startsUpload a))); try assumption;
    [|constructor].
  intros a s Hs Ha HP.
  apply step_uploading_idle; try assumption.
  apply negb_true_iff. assumption.
Qed.

(** ** Submissions *)

Lemma step_submitted a s :
  Forall ownPending (inflight s) ->
  hasEditor (now (step a s)) = hasEditor (now s) /\
  exists handed,
    submitted (now (step a s)) = (submitted (now s) ++ handed)%list /\
    length handed = if (isSubmit a && hasEditor (now s))%bool then 1 else 0.
Proof.
  intro Hs. destruct s as [w pending]. cbn [now inflight] in *.
  unfold hasEditor.
  by_step a {| now := w; inflight := pending |} Hs;
    cbn [step now isSubmit andb]; unfold_handlers; split_editor;
    (split; [reflexivity|]);
    first [ exists []; split; [symmetry; apply app_nil_r|reflexivity]
          | eexists; split; reflexivity ].
Qed.

Lemma runAll_submitted steps s :
  Forall ownPending (inflight s) ->
  exists handed,
    submitted (now (runAll steps s)) = (submitted (now s) ++ handed)%list /\
    length handed =
      if hasEditor (now s) then length (filter isSubmit steps) else 0.
Proof.
  revert s. induction steps as [|a steps IH]; intros s Hs.
  - exists []. split; [symmetry; apply app_nil_r|].
    destruct (hasEditor (now s)); reflexivity.
  - destruct (step_submitted a s Hs) as (Hed & first & Hfirst & Hlen).
    destruct (IH (step a s) (step_own a s Hs)) as (rest & Hrest & Hlen').
    exists (first ++ rest)%list. cbn [runAll fold_left]. fold (runAll steps (step a s)).
    split; [rewrite Hrest, Hfirst, app_assoc; reflexivity|].
    rewrite length_app, Hlen, Hlen', Hed. cbn [filter].
    destruct (hasEditor (now s)), (isSubmit a); reflexivity.
Qed.

(** X7: [onSubmit] is called once for every click on the submit button
    when the editor exists, and never otherwise.  Along any run from a
    state with nothing in flight, the posts handed over so far stay, in
    order, and as many are added as there were submit clicks (none while
    the editor is missing); no other handler, effect or settlement calls
    [onSubmit]. *)
Theorem onSubmit_once_per_submit_click w steps :
  exists handed,
    submitted (now (runAll steps (start w))) = (submitted w ++ handed)%list /\
    length handed =
      if hasEditor w then length (filter isSubmit steps) else 0.
Proof. apply (runAll_submitted steps (start w)). constructor. Qed.

(** ** Requests that overlap *)

(** X8: of a gallery fetch and an upload that are in flight together, the
    one that settles last decides the cached list.  The upload started
    while the fetch was in flight holds the list of its render: when it
    resolves last, the list is its entry in front of that old list and the
    fetched list is gone; when the fetch resolves last, the list is the
    fetched one and the uploaded entry is in it only if the server sent
    it. *)
Theorem last_settlement_decides_gallery_list w image
  (fetched : list Image) (d : Image) :
  images (hooks (now (runAll
    [MountFetch; Handle (GalleryFileSelect image);
     SettleGet 0 (Resolved fetched); SettlePost 0 (Resolved d)]
    (start w)))) = d :: images (hooks w) /\
  images (hooks (now (runAll
    [MountFetch; Handle (GalleryFileSelect image);
     SettlePost 1 (Resolved d); SettleGet 0 (Resolved fetched)]
    (start w)))) = fetched.
Proof. split; reflexivity. Qed.

(** X9: two uploads in flight together keep one entry.  Both were started
    from renders with the same list, so whichever resolves last installs
    its own entry in front of that list, and the entry of the other is
    dropped; afterwards nothing is in flight. *)
Theorem overlapping_uploads_lose_an_entry w imageA imageB (a b : Image) :
  let inOrder := runAll
    [Handle (GalleryFileSelect imageA); Handle (GalleryFileSelect imageB);
     SettlePost 0 (Resolved a); SettlePost 0 (Resolved b)] (start w) in
  let reversed := runAll
    [Handle (GalleryFileSelect imageA); Handle (GalleryFileSelect imageB);
     SettlePost 1 (Resolved b); SettlePost 0 (Resolved a)] (start w) in
  images (hooks (now inOrder)) = b :: images (hooks w) /\
  images (hooks (now reversed)) = a :: images (hooks w) /\
  inflight inOrder = [] /\ inflight reversed = [].
Proof. cbn zeta. repeat split. Qed.

(** X10: with two uploads in flight, the first one to resolve lowers the
    uploading flag although the other is still in flight. *)
Theorem uploading_lowered_while_upload_in_flight w imageA imageB (a : Image) :
  let s := runAll
    [Handle (GalleryFileSelect imageA); Handle (GalleryFileSelect imageB);
     SettlePost 0 (Resolved a)] (start w) in
  uploading (hooks (now s)) = false /\ length (inflight s) = 1.
Proof. cbn zeta. split; reflexivity. Qed.

(** X11: an upload can be retried after a failure.  When an upload is
    rejected and the next one resolves, the list is the new entry in front
    of the list from before both, the flag left up by the failure is down
    again and nothing is in flight. *)
Theorem retry_after_rejected_upload w imageA imageB err (b : Image) :
  let s := runAll
    [Handle (GalleryFileSelect imageA); SettlePost 0 (Rejected err);
     Handle (GalleryFileSelect imageB); SettlePost 0 (Resolved b)]
    (start w) in
  images (hooks (now s)) = b :: images (hooks w) /\
  uploading (hooks (now s)) = false /\
  inflight s = [].
Proof. cbn zeta. repeat split. Qed.

(** ** Updaters and renders *)

(** X12: two updaters of the draft taken from the same render: the later
    call wins and the earlier update is lost, since both spread the draft
    of that render. *)
Theorem updaters_of_one_render_last_wins w ev1 ev2 :
  isUpdater ev1 = true -> isUpdater ev2 = true ->
  run (handler (hooks w) ev2) (fst (run (handler (hooks w) ev1) w))
    = run (handler (hooks w) ev2) w.
Proof.
  intros H1 H2.
  destruct ev1; try discriminate; destruct ev2; try discriminate;
    reflexivity.
Qed.

(** X13: with a render between them, updates from different widgets
    commute, and of two updates from the same widget the later one
    stands. *)
Theorem widget_updates_commute w v v' result result' file file' :
  settle (TitleInput v) (settle (SeoChange result) w)
    = settle (SeoChange result) (settle (TitleInput v) w) /\
  settle (TitleInput v) (settle (ThumbnailChange file) w)
    = settle (ThumbnailChange file) (settle (TitleInput v) w) /\
  settle (SeoChange result) (settle (ThumbnailChange file) w)
    = settle (ThumbnailChange file) (settle (SeoChange result) w) /\
  settle (TitleInput v') (settle (TitleInput v) w)
    = settle (TitleInput v') w /\
  settle (SeoChange result') (settle (SeoChange result) w)
    = settle (SeoChange result') w /\
  settle (ThumbnailChange file') (settle (ThumbnailChange file) w)
    = settle (ThumbnailChange file') w.
Proof. repeat split. Qed.

(** ** Clicks, and calls without an editor *)

(** X14: a click in the editor selects the link under it.  When
    [getMarkRange] resolves a range for the link mark at the clicked
    position, the range is stored and, by the selection effect, made the
    editor's text selection, the rest of the state staying as it is; when
    it resolves none, nothing changes, and a range stored by an earlier
    click stays. *)
Theorem click_selects_resolved_range w e pos :
  editor (hooks w) = Some e ->
  match getMarkRange e pos link with
  | Some range =>
      settle (EditorClick pos) w =
        {| hooks := {| selectionRange := Some range;
                       showGallery := showGallery (hooks w);
                       uploading := uploading (hooks w);
                       images := images (hooks w);
                       seoInitialValue := seoInitialValue (hooks w);
                       post := post (hooks w);
                       editor := Some (setTextSelection range e) |};
           submitted := submitted w |}
  | None => settle (EditorClick pos) w = w
  end.
Proof.
  intro Hed. unfold settle. rewrite Hed.
  unfold dispatch, handler. rewrite Hed. unfold handleClick.
  destruct (getMarkRange e pos link) as [range|]; [|reflexivity].
  unfold runEffect, selectionEffect. cbn. rewrite Hed. cbn.
  unfold onEditor. cbn. rewrite Hed. reflexivity.
Qed.

(** X15: while the editor is missing, an image selected in the gallery is
    dropped and the selection effect does nothing: the world is unchanged
    and nothing is queued for the editor to come. *)
Theorem without_editor_calls_are_dropped w result :
  editor (hooks w) = None ->
  step (Handle (GallerySelect result)) (start w) = start w /\
  runEffect selectionEffect w = (w, Completed).
Proof.
  intro Hed. unfold step, start. cbn [now inflight].
  unfold settle, dispatch, runEffect, handler, handleImageSelect,
    optionalCall, selectionEffect.
  rewrite !Hed. cbn. split; reflexivity.
Qed.

(** ** Hydration *)

(** X16: the hydration effect at its edges.  Without an initial value it
    changes nothing.  With one, whatever the draft held is replaced by the
    initial value and the SEO form is seeded with its [meta], [slug] and
    [tags]; the editor is seeded with its content when there is an editor,
    and stays missing when there is none; the gallery list, the flag, the
    selection, the modal and the submitted posts are not touched. *)
Theorem hydration_edges w iv btn b :
  hydrate {| initialValue := None; btnTitle := btn; busy := b |} w = w /\
  hydrate {| initialValue := Some iv; btnTitle := btn; busy := b |} w =
    {| hooks := {| selectionRange := selectionRange (hooks w);
                   showGallery := showGallery (hooks w);
                   uploading := uploading (hooks w);
                   images := images (hooks w);
                   seoInitialValue :=
                     Some {| seo_meta := meta iv; seo_slug := slug iv;
                             seo_tags := tags iv |};
                   post := iv;
                   editor := match editor (hooks w) with
                             | Some e => Some (setContent (content iv) e)
                             | None => None
                             end |};
       submitted := submitted w |}.
Proof.
  split; [reflexivity|].
  unfold hydrate, runEffect, hydrationEffect, optionalCall. cbn.
  destruct (editor (hooks w)) eqn:Hed; cbn;
    unfold setSeoInitialValue, onEditor, setPost; cbn; rewrite ?Hed;
    reflexivity.
Qed.

(** ** From editing to submission *)

(** X17: what is submitted after editing.  With an editor, after a title,
    an SEO result and a thumbnail were entered and an image was inserted
    from the gallery, a click on submit hands [onSubmit] one post: the
    entered title, SEO fields and thumbnail file, and as content the
    markup of the editor after the chain [focus], [setImage] ran on it;
    the content held by the draft is not what is sent. *)
Theorem edits_reach_the_submitted_post w e v seo file img :
  editor (hooks w) = Some e ->
  submitted (dispatchAll
    [TitleInput v; SeoChange seo; ThumbnailChange file; GallerySelect img;
     SubmitClick] w)
  = (submitted w ++
     [ {| title := v;
          content :=
            getHTML (runChain [focus; setImage (sel_src img) (altText img)] e);
          thumbnail := Some (LocalFile file);
          meta := seo_meta seo; tags := seo_tags seo;
          slug := seo_slug seo |} ])%list.
Proof.
  intro Hed. unfold dispatchAll. cbn [fold_left].
  unfold settle, dispatch, handler, handleImageSelect, handleSubmit,
    optionalCall, updateTitle, updateSeoValue, updateThumbnail.
  cbn. rewrite Hed. cbn. rewrite Hed. reflexivity.
Qed.

End SessionProperties.

(** * Concrete runs of the sessions *)

Lemma draft_written_only_by_its_widgets_witness :
  post (hooks (now (runAll
    [MountFetch; Handle (GalleryFileSelect Plain.photo);
     SettleGet 0 (Resolved [{| src := "/a.png" |}]);
     Handle (GallerySelect {| sel_src := "/a.png"; altText := "a" |});
     SettlePost 0 (Rejected Plain.networkError); Handle SubmitClick]
    (start Plain.described)))) = savedPost.
Proof.
  apply (draft_written_only_by_its_widgets Plain.described). reflexivity.
Defined.

Lemma editor_reached_only_by_its_callers_witness :
  editor (hooks (now (runAll
    [Handle (TitleInput "X"); MountFetch;
     Handle (GalleryFileSelect Plain.photo);
     SettlePost 1 (Resolved {| src := "/a.png" |}); Handle SubmitClick]
    (start Plain.ready)))) = Some Plain.blank.
Proof.
  apply (editor_reached_only_by_its_callers Plain.ready). reflexivity.
Defined.

Lemma gallery_list_changes_only_on_resolution_witness :
  images (hooks (now (runAll
    [MountFetch; Handle (GalleryFileSelect Plain.photo);
     SettleGet 0 (Rejected Plain.networkError);
     SettlePost 0 (Rejected Plain.networkError); Handle OpenImageClick]
    (start Plain.ready)))) = [].
Proof.
  apply (gallery_list_changes_only_on_resolution Plain.ready). reflexivity.
Defined.

Lemma gallery_shown_only_by_open_and_close_witness :
  showGallery (hooks (now (runAll
    [Handle OpenImageClick]
    (start Plain.ready)))) = true /\
  showGallery (hooks (now (runAll
    [Handle (GallerySelect {| sel_src := "/a.png"; altText := "a" |});
     Handle (GalleryFileSelect Plain.photo);
     SettlePost 0 (Resolved {| src := "/b.png" |})]
    (runAll [Handle OpenImageClick] (start Plain.ready))))) = true.
Proof.
  split; [reflexivity|].
  apply (gallery_shown_only_by_open_and_close
           (now (runAll [Handle OpenImageClick] (start Plain.ready)))).
  reflexivity.
Defined.

Lemma uploading_lowered_only_by_resolved_upload_witness :
  uploading (hooks (fst (uploadAsset Plain.photo
     (Rejected Plain.networkError) Plain.ready))) = true /\
  uploading (hooks (now (runAll
    [Handle GalleryClose; Handle OpenImageClick; MountFetch;
     SettleGet 0 (Resolved []); Handle (TitleInput "X"); Handle SubmitClick]
    (start (fst (uploadAsset Plain.photo
       (Rejected Plain.networkError) Plain.ready)))))) = true.
Proof.
  split; [reflexivity|].
  apply (uploading_lowered_only_by_resolved_upload
           (fst (uploadAsset Plain.photo (Rejected Plain.networkError)
                   Plain.ready))); reflexivity.
Defined.

Lemma uploading_raised_only_by_file_select_witness :
  uploading (hooks (now (runAll
    [MountFetch; SettleGet 0 (Resolved [{| src := "/a.png" |}]);
     Handle (GallerySelect {| sel_src := "/a.png"; altText := "a" |});
     Handle SubmitClick]
    (start Plain.ready)))) = false.
Proof.
  apply (uploading_raised_only_by_file_select Plain.ready); reflexivity.
Defined.

Lemma updaters_of_one_render_last_wins_witness :
  run (handler (hooks Plain.described) (SeoChange
         {| seo_meta := "m"; seo_slug := "y"; seo_tags := "t" |}))
      (fst (run (handler (hooks Plain.described) (TitleInput "X"))
              Plain.described))
  = run (handler (hooks Plain.described) (SeoChange
         {| seo_meta := "m"; seo_slug := "y"; seo_tags := "t" |}))
      Plain.described.
Proof.
  apply (updaters_of_one_render_last_wins Plain.described
           (TitleInput "X")
           (SeoChange {| seo_meta := "m"; seo_slug := "y"; seo_tags := "t" |}));
    reflexivity.
Defined.

Lemma click_selects_resolved_range_witness :
  editor (hooks Plain.ready) = Some Plain.blank /\
  settle (EditorClick 5) Plain.ready = Plain.ready.
Proof.
  split; [reflexivity|].
  exact (click_selects_resolved_range Plain.ready (e := Plain.blank) 5
           eq_refl).
Defined.

Lemma without_editor_calls_are_dropped_witness :
  editor (hooks Plain.fresh) = None /\
  step (Handle (GallerySelect {| sel_src := "/a.png"; altText := "a" |}))
       (start Plain.fresh) = start Plain.fresh.
Proof.
  split; [reflexivity|].
  apply (without_editor_calls_are_dropped Plain.fresh
           {| sel_src := "/a.png"; altText := "a" |}).
  reflexivity.
Defined.

Lemma edits_reach_the_submitted_post_witness :
  editor (hooks Plain.ready) = Some Plain.blank /\
  submitted (dispatchAll
    [TitleInput "X";
     SeoChange {| seo_meta := "m"; seo_slug := "y"; seo_tags := "t" |};
     ThumbnailChange Plain.photo;
     GallerySelect {| sel_src := "/a.png"; altText := "a" |};
     SubmitClick] Plain.ready)
  = [ {| title := "X"; content := "<img src='/a.png' alt='a'>";
         thumbnail := Some (LocalFile Plain.photo);
         meta := "m"; tags := "t"; slug := "y" |} ].
Proof.
  split; [reflexivity|].
  exact (edits_reach_the_submitted_post Plain.ready (e := Plain.blank) "X"
           {| seo_meta := "m"; seo_slug := "y"; seo_tags := "t" |}
           Plain.photo {| sel_src := "/a.png"; altText := "a" |} eq_refl).
Defined.

(** * Concrete runs of the corrected statements *)

Lemma upload_failure_changes_state_witness :
  uploading (hooks Plain.ready) = false /\
  fst (uploadAsset Plain.photo (Rejected Plain.networkError) Plain.ready)
    <> Plain.ready.
Proof.
  split; [reflexivity|].
  exact (proj2 (proj2
    (upload_failure_changes_state Plain.ready Plain.photo
       Plain.networkError eq_refl))).
Defined.

(** The plain editor keeps the contract with markup as its own document. *)
Lemma hydrate_finalize_reproduces_saved_post_witness :
  SeedsParsed Plain.markup (fun markup => markup) /\
  RoundTrips Plain.markup (fun markup => markup) /\
  editor (hooks Plain.ready) = Some Plain.blank /\
  exists fresh_content,
    submitted
      (finalize
         (hydrate {| initialValue := Some savedPost; btnTitle := "Submit";
                     busy := false |} Plain.ready))
    = [ {| title := "Hi"; content := fresh_content; thumbnail := None;
           meta := "m"; tags := "t"; slug := "s" |} ] /\
    fresh_content = "<p>Hello</p>".
Proof.
  assert (Hseed : SeedsParsed Plain.markup (fun markup => markup))
    by (intros markup e; reflexivity).
  assert (Hround : RoundTrips Plain.markup (fun markup => markup))
    by (intro e; reflexivity).
  split; [exact Hseed|]. split; [exact Hround|]. split; [reflexivity|].
  destruct (hydrate_finalize_reproduces_saved_post Plain.ready
              (e := Plain.blank) "Submit" false Hseed Hround eq_refl)
    as (_ & _ & _ & _ & Hsub & Hsame).
  exists (getHTML (setContent "<p>Hello</p>" Plain.blank)).
  split; [exact Hsub|exact Hsame].
Defined.
